(** * QuantLib: grid preparation of the finite-difference BSM pricer and
      step validation of the Monte Carlo forward engine

    Shallow embedding of
    - [Sources/Pricers/bsmnumericaloption.cpp] (class [BSMNumericalOption]),
    - [ql/pricingengines/forward/mcforwardvanillaengine.hpp]
      (class [MCForwardVanillaEngine], constructor).

    Conventions of the embedding.
    - A C++ [double] is a real number ([R]); rounding, infinities and NaN are
      not represented.  [QL_SQRT], [QL_EXP], [QL_LOG], [QL_MAX], [QL_FABS] are
      [sqrt], [exp], [ln], [Rmax], [Rabs].
    - A C++ [int] is an integer ([Z]); [Size] is a natural number ([N]).
    - A member function is a function from the object before the call to an
      [outcome]: either the returned value with the object after the call, or
      the exception that left the function.
    - An [Array] is a list; an index outside it is undefined behaviour in the
      source and is made observable here as the fault [OutOfBounds]. *)

From Stdlib Require Import Reals ZArith NArith String List Bool Lia Lra Psatz.
From Stdlib Require Import DecimalString.
Import ListNotations.

Open Scope Z_scope.
Open Scope R_scope.

(* ===================================================================== *)
(** * Outcomes and the method monad *)
(* ===================================================================== *)

Inductive exn : Type :=
| Error (msg : string)      (* thrown by a failed QL_REQUIRE *)
| OutOfBounds (index : Z).  (* array index outside [0, size) *)

Inductive outcome (A : Type) : Type :=
| Ok (a : A)
| Raise (e : exn).

Arguments Ok {A} a.
Arguments Raise {A} e.

(** A method of an object of type [St] returning an [A]. *)
Definition method (St A : Type) : Type := St -> outcome (A * St).

Definition ret {St A} (a : A) : method St A := fun this => Ok (a, this).

Definition bind {St A B} (c : method St A) (k : A -> method St B) : method St B :=
  fun this =>
    match c this with
    | Ok (a, this') => k a this'
    | Raise e => Raise e
    end.

Definition get {St} : method St St := fun this => Ok (this, this).
Definition modify {St} (f : St -> St) : method St unit := fun this => Ok (tt, f this).
Definition throw {St A} (e : exn) : method St A := fun _ => Raise e.
Definition lift {St A} (o : outcome A) : method St A :=
  fun this => match o with Ok a => Ok (a, this) | Raise e => Raise e end.

Declare Scope method_scope.
Delimit Scope method_scope with method.
Notation "x <- c ;; k" := (bind c (fun x => k))
  (at level 61, c at next level, right associativity) : method_scope.
Notation "c ;; k" := (bind c (fun _ => k))
  (at level 61, right associativity) : method_scope.
Open Scope method_scope.

(** [QL_REQUIRE(cond, msg)]. *)
Definition QL_REQUIRE {St} (cond : bool) (msg : string) : method St unit :=
  if cond then ret tt else throw (Error msg).

(** [for (j = lo; j < hi; j++) body(j)], for a body that assigns neither
    [j] nor [hi]. *)
Fixpoint iterate {St} (n : nat) (j : Z) (body : Z -> method St unit) : method St unit :=
  match n with
  | O => ret tt
  | S n' => body j ;; iterate n' (j + 1)%Z body
  end.

Definition for_ {St} (lo hi : Z) (body : Z -> method St unit) : method St unit :=
  iterate (Z.to_nat (hi - lo)) lo body.

(* ===================================================================== *)
(** * Arrays *)
(* ===================================================================== *)

Module Array.

Definition t : Type := list R.

(** [Array(n)]: [n] elements. *)
Definition make (n : Z) : t := repeat 0 (Z.to_nat n).

Definition size (a : t) : Z := Z.of_nat (length a).

Definition in_range (a : t) (j : Z) : bool := (0 <=? j)%Z && (j <? size a)%Z.

Fixpoint update (n : nat) (x : R) (a : t) : t :=
  match a, n with
  | [], _ => []
  | _ :: tl, O => x :: tl
  | hd :: tl, S n' => hd :: update n' x tl
  end.

(** The element at index [j] of an array that has one. *)
Definition elt (a : t) (j : Z) : R := nth (Z.to_nat j) a 0.

(** [a[j]] read. *)
Definition load (a : t) (j : Z) : outcome R :=
  if in_range a j then Ok (elt a j) else Raise (OutOfBounds j).

(** [a[j] = x]. *)
Definition store (a : t) (j : Z) (x : R) : outcome t :=
  if in_range a j then Ok (update (Z.to_nat j) x a) else Raise (OutOfBounds j).

End Array.

(* ===================================================================== *)
(** * The finite-difference pricer: data *)
(* ===================================================================== *)

(** Modelled from the spec: the enumeration [BSMOption::Type] is declared in a
    header that is not part of the sources at hand.  Its enumerators are
    [Call], [Put] and [Straddle]; [Unlisted] stands for an object of the
    enumeration type whose value is none of them, which the [default:] label
    of a [switch] receives. *)
Inductive OptionType : Type :=
| Call
| Put
| Straddle
| Unlisted (tag : Z).

(** Modelled from the spec: [FiniteDifferences::BoundaryCondition] is a
    descriptor (type, value); its class is not part of the sources at hand. *)
Inductive BoundaryConditionType : Type := Neumann | Dirichlet.

Record BoundaryCondition : Type := mkBoundaryCondition {
  bc_type : BoundaryConditionType;
  bc_value : R
}.

(** Modelled from the spec: [FiniteDifferences::BSMOperator] is a banded
    operator of a given size with two boundary-condition descriptors.  Its
    coefficients are computed by code that is not part of the sources at hand;
    the record keeps the constructor's arguments and the two descriptors. *)
Record BSMOperator : Type := mkBSMOperator {
  op_size : Z;
  op_logSpacing : R;
  op_riskFreeRate : R;
  op_dividendYield : R;
  op_volatility : R;
  lowerBC : option BoundaryCondition;
  higherBC : option BoundaryCondition
}.

Definition BSMOperator_new (size : Z) (dx r q sigma : R) : BSMOperator :=
  mkBSMOperator size dx r q sigma None None.

Definition setLowerBC (bc : BoundaryCondition) (op : BSMOperator) : BSMOperator :=
  mkBSMOperator (op_size op) (op_logSpacing op) (op_riskFreeRate op)
    (op_dividendYield op) (op_volatility op) (Some bc) (higherBC op).

Definition setHigherBC (bc : BoundaryCondition) (op : BSMOperator) : BSMOperator :=
  mkBSMOperator (op_size op) (op_logSpacing op) (op_riskFreeRate op)
    (op_dividendYield op) (op_volatility op) (lowerBC op) (Some bc).

(** The arguments handed to the base class [BSMOption]. *)
Record BSMOption : Type := mkBSMOption {
  type_ : OptionType;
  underlying_ : R;
  strike_ : R;
  dividendYield_ : R;
  riskFreeRate_ : R;
  residualTime_ : R;
  volatility_ : R
}.

(** The object: the inputs and the [mutable] members written by the
    [const] methods. *)
Record BSMNumericalOption : Type := mkBSMNumericalOption {
  option_ :> BSMOption;
  gridPoints_ : Z;
  grid_ : Array.t;
  initialPrices_ : Array.t;
  sMin_ : R;
  sMax_ : R;
  gridLogSpacing_ : R;
  finiteDifferenceOperator_ : option BSMOperator;
  hasBeenCalculated_ : bool;
  value_ : R;
  delta_ : R;
  gamma_ : R;
  theta_ : R
}.

Definition set_sMin (x : R) (o : BSMNumericalOption) : BSMNumericalOption :=
  mkBSMNumericalOption o (gridPoints_ o) (grid_ o) (initialPrices_ o) x (sMax_ o)
    (gridLogSpacing_ o) (finiteDifferenceOperator_ o) (hasBeenCalculated_ o)
    (value_ o) (delta_ o) (gamma_ o) (theta_ o).

Definition set_sMax (x : R) (o : BSMNumericalOption) : BSMNumericalOption :=
  mkBSMNumericalOption o (gridPoints_ o) (grid_ o) (initialPrices_ o) (sMin_ o) x
    (gridLogSpacing_ o) (finiteDifferenceOperator_ o) (hasBeenCalculated_ o)
    (value_ o) (delta_ o) (gamma_ o) (theta_ o).

Definition set_gridLogSpacing (x : R) (o : BSMNumericalOption) : BSMNumericalOption :=
  mkBSMNumericalOption o (gridPoints_ o) (grid_ o) (initialPrices_ o) (sMin_ o)
    (sMax_ o) x (finiteDifferenceOperator_ o) (hasBeenCalculated_ o)
    (value_ o) (delta_ o) (gamma_ o) (theta_ o).

Definition set_grid (a : Array.t) (o : BSMNumericalOption) : BSMNumericalOption :=
  mkBSMNumericalOption o (gridPoints_ o) a (initialPrices_ o) (sMin_ o) (sMax_ o)
    (gridLogSpacing_ o) (finiteDifferenceOperator_ o) (hasBeenCalculated_ o)
    (value_ o) (delta_ o) (gamma_ o) (theta_ o).

Definition set_initialPrices (a : Array.t) (o : BSMNumericalOption) : BSMNumericalOption :=
  mkBSMNumericalOption o (gridPoints_ o) (grid_ o) a (sMin_ o) (sMax_ o)
    (gridLogSpacing_ o) (finiteDifferenceOperator_ o) (hasBeenCalculated_ o)
    (value_ o) (delta_ o) (gamma_ o) (theta_ o).

Definition set_finiteDifferenceOperator (op : option BSMOperator) (o : BSMNumericalOption)
  : BSMNumericalOption :=
  mkBSMNumericalOption o (gridPoints_ o) (grid_ o) (initialPrices_ o) (sMin_ o)
    (sMax_ o) (gridLogSpacing_ o) op (hasBeenCalculated_ o)
    (value_ o) (delta_ o) (gamma_ o) (theta_ o).

Definition set_results (v d g t : R) (o : BSMNumericalOption) : BSMNumericalOption :=
  mkBSMNumericalOption o (gridPoints_ o) (grid_ o) (initialPrices_ o) (sMin_ o)
    (sMax_ o) (gridLogSpacing_ o) (finiteDifferenceOperator_ o) true v d g t.

(** A method of [BSMNumericalOption]. *)
Definition meth (A : Type) : Type := method BSMNumericalOption A.

(** The object the method is called on. *)
Definition self : meth BSMNumericalOption := get.

(** [grid_[j]] and [initialPrices_[j]], read and written. *)
Definition grid_load (j : Z) : meth R :=
  this <- self ;; lift (Array.load (grid_ this) j).

Definition grid_store (j : Z) (x : R) : meth unit :=
  this <- self ;; a <- lift (Array.store (grid_ this) j x) ;; modify (set_grid a).

Definition initialPrices_load (j : Z) : meth R :=
  this <- self ;; lift (Array.load (initialPrices_ this) j).

Definition initialPrices_store (j : Z) (x : R) : meth unit :=
  this <- self ;; a <- lift (Array.store (initialPrices_ this) j x) ;;
  modify (set_initialPrices a).

(* ===================================================================== *)
(** * The finite-difference pricer: methods *)
(* ===================================================================== *)

Section Constructor.

(** [safeGridPoints] is a static member defined in the class header. *)
Variable safeGridPoints : Z -> R -> Z.

(** [BSMNumericalOption::BSMNumericalOption]. *)
Definition BSMNumericalOption_new (type : OptionType)
    (underlying strike dividendYield riskFreeRate residualTime volatility : R)
    (gridPoints : Z) : BSMNumericalOption :=
  let n := safeGridPoints gridPoints residualTime in
  mkBSMNumericalOption
    (mkBSMOption type underlying strike dividendYield riskFreeRate
       residualTime volatility)
    n (Array.make n) (Array.make n) 0 0 0 None false 0 0 0 0.

End Constructor.

(** [BSMNumericalOption::setGridLimits]. *)
Definition setGridLimits : meth unit :=
  this <- self ;;
  (* correction for small volatilities *)
  let volSqrtTime := volatility_ this * sqrt (residualTime_ this) in
  (* the prefactor fine tunes performance at small volatilities *)
  let prefactor := 1 + 0.02 / volSqrtTime in
  let minMaxFactor := exp (4 * prefactor * volSqrtTime) in
  modify (set_sMin (underlying_ this / minMaxFactor)) ;;
  modify (set_sMax (underlying_ this * minMaxFactor)) ;;
  (* insure strike is included in the grid *)
  let safetyZoneFactor := 1.1 in
  this <- self ;;
  (if Rgt_dec (sMin_ this) (strike_ this / safetyZoneFactor) then
     modify (set_sMin (strike_ this / safetyZoneFactor)) ;;
     (* enforce central placement of the underlying *)
     this <- self ;;
     modify (set_sMax (underlying_ this / (sMin_ this / underlying_ this)))
   else ret tt) ;;
  this <- self ;;
  (if Rlt_dec (sMax_ this) (strike_ this * safetyZoneFactor) then
     modify (set_sMax (strike_ this * safetyZoneFactor)) ;;
     (* enforce central placement of the underlying *)
     this <- self ;;
     modify (set_sMin (underlying_ this / (sMax_ this / underlying_ this)))
   else ret tt).

(** [BSMNumericalOption::initializeGrid]. *)
Definition initializeGrid : meth unit :=
  this <- self ;;
  modify (set_gridLogSpacing
            ((ln (sMax_ this) - ln (sMin_ this)) / IZR (gridPoints_ this - 1))) ;;
  this <- self ;;
  let edx := exp (gridLogSpacing_ this) in
  grid_store 0 (sMin_ this) ;;
  for_ 1 (gridPoints_ this) (fun j =>
    g <- grid_load (j - 1) ;;
    grid_store j (g * edx)).

(** [BSMNumericalOption::initializeInitialCondition]. *)
Definition initializeInitialCondition : meth unit :=
  this <- self ;;
  match type_ this with
  | Call =>
      for_ 0 (gridPoints_ this) (fun j =>
        g <- grid_load j ;;
        initialPrices_store j (Rmax (g - strike_ this) 0))
  | Put =>
      for_ 0 (gridPoints_ this) (fun j =>
        g <- grid_load j ;;
        initialPrices_store j (Rmax (strike_ this - g) 0))
  | Straddle =>
      for_ 0 (gridPoints_ this) (fun j =>
        g <- grid_load j ;;
        initialPrices_store j (Rabs (strike_ this - g)))
  | Unlisted _ =>
      QL_REQUIRE (1 =? 0)%Z "BSMNumericalOption: invalid option type"
  end.

Definition modify_operator (f : BSMOperator -> BSMOperator) : meth unit :=
  modify (fun o => set_finiteDifferenceOperator
                     (option_map f (finiteDifferenceOperator_ o)) o).

(** [BSMNumericalOption::initializeOperator]. *)
Definition initializeOperator : meth unit :=
  this <- self ;;
  modify (set_finiteDifferenceOperator
            (Some (BSMOperator_new (gridPoints_ this) (gridLogSpacing_ this)
                     (riskFreeRate_ this) (dividendYield_ this) (volatility_ this)))) ;;
  p1 <- initialPrices_load 1 ;;
  p0 <- initialPrices_load 0 ;;
  modify_operator (setLowerBC (mkBoundaryCondition Neumann (p1 - p0))) ;;
  pN1 <- initialPrices_load (gridPoints_ this - 1) ;;
  pN2 <- initialPrices_load (gridPoints_ this - 2) ;;
  modify_operator (setHigherBC (mkBoundaryCondition Neumann (pN1 - pN2))).

(* ===================================================================== *)
(** * The finite-difference pricer: lazily computed results *)
(* ===================================================================== *)

(** An object under observation: the object together with the number of
    times its [calculate()] has been entered. *)
Record Observed : Type := mkObserved {
  object :> BSMNumericalOption;
  calculations : nat
}.

Inductive Accessor : Type := AValue | ADelta | AGamma | ATheta.

Definition observed : method Observed Observed := get.

Section Accessors.

(** [calculate()] is virtual and defined by the derived classes. *)
Variable calculate_body : meth unit.

(** The call [calculate()] on an observed object: the entry is counted,
    then the body runs on the object. *)
Definition calculate : method Observed unit :=
  fun w =>
    match calculate_body (object w) with
    | Ok (_, o') => Ok (tt, mkObserved o' (S (calculations w)))
    | Raise e => Raise e
    end.

(** [BSMNumericalOption::value]. *)
Definition value : method Observed R :=
  this <- observed ;;
  (if negb (hasBeenCalculated_ this) then calculate else ret tt) ;;
  this <- observed ;;
  ret (value_ this).

(** [BSMNumericalOption::delta]. *)
Definition delta : method Observed R :=
  this <- observed ;;
  (if negb (hasBeenCalculated_ this) then calculate else ret tt) ;;
  this <- observed ;;
  ret (delta_ this).

(** [BSMNumericalOption::gamma]. *)
Definition gamma : method Observed R :=
  this <- observed ;;
  (if negb (hasBeenCalculated_ this) then calculate else ret tt) ;;
  this <- observed ;;
  ret (gamma_ this).

(** [BSMNumericalOption::theta]. *)
Definition theta : method Observed R :=
  this <- observed ;;
  (if negb (hasBeenCalculated_ this) then calculate else ret tt) ;;
  this <- observed ;;
  ret (theta_ this).

Definition call (a : Accessor) : method Observed R :=
  match a with
  | AValue => value
  | ADelta => delta
  | AGamma => gamma
  | ATheta => theta
  end.

(** The member an accessor returns. *)
Definition cached (a : Accessor) (o : BSMNumericalOption) : R :=
  match a with
  | AValue => value_ o
  | ADelta => delta_ o
  | AGamma => gamma_ o
  | ATheta => theta_ o
  end.

(** A sequence of accessor calls, with the values they return. *)
Fixpoint calls (l : list Accessor) : method Observed (list R) :=
  match l with
  | [] => ret []
  | a :: l' => r <- call a ;; rs <- calls l' ;; ret (r :: rs)
  end.

End Accessors.

(** Grid, payoff and operator, in the order [calculate()] runs them. *)
Definition prepare : meth unit :=
  initializeGrid ;; initializeInitialCondition ;; initializeOperator.

(** Modelled from the spec: the body of [calculate()] is defined by derived
    classes that are not part of the sources at hand.  It runs grid bounds,
    grid, payoff and operator assembly, hands the problem to the external PDE
    stepper ([solve]) and stores the four results together with the flag. *)
Definition calculate_pipeline (solve : BSMNumericalOption -> R * R * R * R) : meth unit :=
  setGridLimits ;;
  prepare ;;
  this <- self ;;
  let '(v, d, g, t) := solve this in
  modify (set_results v d g t).

(* ===================================================================== *)
(** * The Monte Carlo forward engine: constructor *)
(* ===================================================================== *)

Module MCForwardVanillaEngine.

(** [operator<<] of a [Size] into the message stream. *)
Definition show (n : N) : string := NilZero.string_of_uint (N.to_uint n).

Section Engine.

(** [Null<Size>()], the value of an argument that is not supplied; its
    definition is in a header that is not part of the sources at hand. *)
Variable Null_Size : N.

(** The shared process descriptor. *)
Variable StochasticProcess : Type.

Record t : Type := mk {
  antitheticVariate_ : bool;
  process_ : StochasticProcess;
  timeSteps_ : N;
  timeStepsPerYear_ : N;
  requiredSamples_ : N;
  maxSamples_ : N;
  requiredTolerance_ : R;
  brownianBridge_ : bool;
  seed_ : N
}.

(** The constructor's body, run on the object set up by the member
    initialisers.  [registerWith(process_)] belongs to the observer
    plumbing and leaves the members as they are. *)
Definition body (timeSteps timeStepsPerYear : N) : method t unit :=
  QL_REQUIRE (negb (timeSteps =? Null_Size)%N || negb (timeStepsPerYear =? Null_Size)%N)
    "no time steps provided" ;;
  QL_REQUIRE ((timeSteps =? Null_Size)%N || (timeStepsPerYear =? Null_Size)%N)
    "both time steps and time steps per year were provided" ;;
  QL_REQUIRE (negb (timeSteps =? 0)%N)
    ("timeSteps must be positive, " ++ show timeSteps ++ " not allowed") ;;
  QL_REQUIRE (negb (timeStepsPerYear =? 0)%N)
    ("timeStepsPerYear must be positive, " ++ show timeStepsPerYear ++ " not allowed").

(** [MCForwardVanillaEngine::MCForwardVanillaEngine]. *)
Definition new (process : StochasticProcess) (timeSteps timeStepsPerYear : N)
    (brownianBridge antitheticVariate : bool) (requiredSamples : N)
    (requiredTolerance : R) (maxSamples seed : N) : outcome t :=
  match body timeSteps timeStepsPerYear
          (mk antitheticVariate process timeSteps timeStepsPerYear requiredSamples
              maxSamples requiredTolerance brownianBridge seed) with
  | Ok (_, this) => Ok this
  | Raise e => Raise e
  end.

(** An argument is supplied when it is not the null value. *)
Definition supplied (n : N) : Prop := n <> Null_Size.

(** The step configuration the constructor rejects, in the words of the
    specification: neither supplied, both supplied, or a supplied value
    that is zero. *)
Definition ill_formed (timeSteps timeStepsPerYear : N) : Prop :=
  (~ supplied timeSteps /\ ~ supplied timeStepsPerYear)
  \/ (supplied timeSteps /\ supplied timeStepsPerYear)
  \/ (supplied timeSteps /\ timeSteps = 0%N)
  \/ (supplied timeStepsPerYear /\ timeStepsPerYear = 0%N).

(** Exactly one value supplied, and that one positive. *)
Definition one_positive (timeSteps timeStepsPerYear : N) : Prop :=
  (supplied timeSteps /\ ~ supplied timeStepsPerYear /\ (0 < timeSteps)%N)
  \/ (~ supplied timeSteps /\ supplied timeStepsPerYear /\ (0 < timeStepsPerYear)%N).


(** Calendar dates, the time a process gives to a date, and the time grid
    class with its constructor [TimeGrid(begin, end, steps)] are declared in
    headers that are not part of the sources at hand. *)
Variable Date : Type.
Variable time : StochasticProcess -> Date -> R.
Variable TimeGrid : Type.
Variable TimeGrid_new : list R -> N -> TimeGrid.



End Engine.

End MCForwardVanillaEngine.

(* ===================================================================== *)
(** * Vocabulary of the statements *)
(* ===================================================================== *)

(** The two bounds replaced, everything else kept. *)
Definition with_limits (lo hi : R) (o : BSMNumericalOption) : BSMNumericalOption :=
  set_sMax hi (set_sMin lo o).

(** The factor between the spot and the first pair of bounds. *)
Definition minMaxFactor (o : BSMOption) : R :=
  exp (4 * (1 + 0.02 / (volatility_ o * sqrt (residualTime_ o)))
         * (volatility_ o * sqrt (residualTime_ o))).

(** The bounds after the first test of [setGridLimits], and after the second;
    [z] is the safety zone factor. *)
Definition after_low (z S K f : R) : R * R :=
  if Rgt_dec (S / f) (K / z) then (K / z, S / (K / z / S)) else (S / f, S * f).

Definition after_high (z S K : R) (b : R * R) : R * R :=
  if Rlt_dec (snd b) (K * z) then (S / (K * z / S), K * z) else b.

Definition limits (z S K f : R) : R * R := after_high z S K (after_low z S K f).

(** Both arrays have [gridPoints_] elements, as the constructor makes them. *)
Definition sized (o : BSMNumericalOption) : Prop :=
  Array.size (grid_ o) = gridPoints_ o /\ Array.size (initialPrices_ o) = gridPoints_ o.

(** The option type is one of the three enumerators. *)
Definition listed (ty : OptionType) : Prop :=
  match ty with Unlisted _ => False | _ => True end.

(** The log spacing [initializeGrid] computes. *)
Definition logSpacing (o : BSMNumericalOption) : R :=
  (ln (sMax_ o) - ln (sMin_ o)) / IZR (gridPoints_ o - 1).

(** The state of the loop of [initializeGrid] on entry to iteration [j]: the
    grid is filled geometrically below [j]. *)
Definition grid_filled (this : BSMNumericalOption) (j : Z) (s : BSMNumericalOption) : Prop :=
  exists g, s = set_grid g (set_gridLogSpacing (logSpacing this) this)
    /\ Array.size g = gridPoints_ this
    /\ forall i, (Z.of_nat i < j)%Z ->
                 nth i g 0 = sMin_ this * exp (logSpacing this) ^ i.

(** The payoff array [p] holds the payoff [pay] of the grid below [j]. *)
Definition payoff_written (this : BSMNumericalOption) (pay : R -> R) (j : Z)
    (p : Array.t) : Prop :=
  Array.size p = gridPoints_ this
  /\ forall i, (0 <= i < j)%Z -> Array.elt p i = pay (Array.elt (grid_ this) i).

(** The state of a payoff loop on entry to iteration [j]. *)
Definition payoff_filled (this : BSMNumericalOption) (pay : R -> R) (j : Z)
    (s : BSMNumericalOption) : Prop :=
  exists p, s = set_initialPrices p this /\ payoff_written this pay j p.

(** What [initializeInitialCondition] does with the payoff formula [pay]:
    it returns, fills [initialPrices_] with the payoff of every grid point
    and changes nothing else. *)
Definition fills_payoff (pay : R -> R) (this : BSMNumericalOption) : Prop :=
  exists p,
    initializeInitialCondition this = Ok (tt, set_initialPrices p this)
    /\ Array.size p = gridPoints_ this
    /\ forall j, (0 <= j < gridPoints_ this)%Z ->
                 Array.elt p j = pay (Array.elt (grid_ this) j).

(** The element [j] of the payoff array. *)
Definition payoff (o : BSMNumericalOption) (j : Z) : R := Array.elt (initialPrices_ o) j.

(* ===================================================================== *)
(** * Sessions used as examples *)
(* ===================================================================== *)

(** The session of the end-to-end scenario: a call with spot and strike 100,
    dividend yield 0.02, rate 0.05, one year, volatility 0.2, 101 points. *)
Definition scenario : BSMNumericalOption :=
  BSMNumericalOption_new (fun n _ => n) Call 100 100 0.02 0.05 1 0.2 101.


(** A three-point session with bounds 50 and 200 and the payoff 0, 1, 3. *)
Definition three_points : BSMNumericalOption :=
  set_initialPrices [0; 1; 3]
    (with_limits 50 200
       (BSMNumericalOption_new (fun n _ => n) Put 100 100 0.02 0.05 1 0.2 3)).

(** The scenario with the strike far below the spot, far above it, and just
    above it at a small volatility. *)
Definition low_strike : BSMNumericalOption :=
  BSMNumericalOption_new (fun n _ => n) Call 100 10 0.02 0.05 1 0.2 101.

Definition high_strike : BSMNumericalOption :=
  BSMNumericalOption_new (fun n _ => n) Call 100 300 0.02 0.05 1 0.2 101.

Definition near_strike : BSMNumericalOption :=
  BSMNumericalOption_new (fun n _ => n) Call 100 100.5 0.02 0.05 1 0.001 101.

(** The three-point session with the grid 50, 100, 200. *)
Definition three_points_grid : BSMNumericalOption :=
  set_grid [50; 100; 200] three_points.

(** A stand-in for the external stepper. *)
Definition no_solver (o : BSMNumericalOption) : R * R * R * R := (0, 0, 0, 0).

(** The largest [int], the null value of the examples. *)
Definition int_max : N := 2147483647.

(** The object with another option type, everything else kept. *)
Definition with_type (ty : OptionType) (o : BSMNumericalOption) : BSMNumericalOption :=
  mkBSMNumericalOption
    (mkBSMOption ty (underlying_ o) (strike_ o) (dividendYield_ o) (riskFreeRate_ o)
       (residualTime_ o) (volatility_ o))
    (gridPoints_ o) (grid_ o) (initialPrices_ o) (sMin_ o) (sMax_ o)
    (gridLogSpacing_ o) (finiteDifferenceOperator_ o) (hasBeenCalculated_ o)
    (value_ o) (delta_ o) (gamma_ o) (theta_ o).

(** A [calculate()] that stores four results and leaves the flag alone. *)
Definition forgetful_body : meth unit :=
  modify (fun o : BSMNumericalOption =>
    mkBSMNumericalOption o (gridPoints_ o) (grid_ o) (initialPrices_ o) (sMin_ o)
      (sMax_ o) (gridLogSpacing_ o) (finiteDifferenceOperator_ o)
      (hasBeenCalculated_ o) 1 2 3 4).


(** The payoff, then the operator. *)
Definition payoff_and_operator : meth unit :=
  initializeInitialCondition ;; initializeOperator.

(** The payoff the [switch] of [initializeInitialCondition] writes for a
    grid point [g], by option type; an unlisted type writes nothing. *)
Definition payoff_at (ty : OptionType) (K g : R) : R :=
  match ty with
  | Call => Rmax (g - K) 0
  | Put => Rmax (K - g) 0
  | Straddle => Rabs (K - g)
  | Unlisted _ => 0
  end.


(** The value of a boundary condition of Neumann type. *)
Definition neumann_value (bc : option BoundaryCondition) : option R :=
  match bc with
  | Some (mkBoundaryCondition Neumann v) => Some v
  | _ => None
  end.




(* ===================================================================== *)
(** * Grid bounds *)
(* ===================================================================== *)

Section GridBounds.

Lemma setGridLimits_run (this : BSMNumericalOption) :
  let b := limits 1.1 (underlying_ this) (strike_ this) (minMaxFactor this) in
  setGridLimits this = Ok (tt, with_limits (fst b) (snd b) this).
Proof.
  unfold limits, after_high, after_low, minMaxFactor, setGridLimits, with_limits.
  unfold bind, self, get, modify, ret. cbn.
  destruct (Rgt_dec _ _); cbn; destruct (Rlt_dec _ _); cbn; reflexivity.
Qed.

Lemma minMaxFactor_gt_1 (o : BSMOption) :
  0 < volatility_ o -> 0 < residualTime_ o -> 1 < minMaxFactor o.
Proof.
  intros Hv Ht. unfold minMaxFactor.
  assert (Hs : 0 < volatility_ o * sqrt (residualTime_ o)).
  { apply Rmult_lt_0_compat; [assumption | now apply sqrt_lt_R0]. }
  set (v := volatility_ o * sqrt (residualTime_ o)) in *.
  assert (E : 0.02 / v * v = 0.02).
  { unfold Rdiv. rewrite Rmult_assoc, Rinv_l; lra. }
  replace (4 * (1 + 0.02 / v) * v) with (4 * v + 4 * (0.02 / v * v)) by ring.
  rewrite E, <- exp_0. apply exp_increasing. lra.
Qed.

(** Re-centring: the opposite bound is [S * S / x]. *)
Lemma recentre_eq (S x : R) : 0 < S -> 0 < x -> S / (x / S) = S * S / x.
Proof. intros HS Hx. field. split; lra. Qed.




Section Positive.

Variables z S K f : R.
Hypothesis Hz : 0 < z.
Hypothesis HS : 0 < S.
Hypothesis HK : 0 < K.
Hypothesis Hf : 1 < f.

Lemma div_factor_lt : S / f < S.
Proof.
  apply Rmult_lt_reg_r with f; [lra|].
  replace (S / f * f) with S by (field; lra). nra.
Qed.









End Positive.

End GridBounds.

Section GridBoundsClaims.

Variable this : BSMNumericalOption.
Hypothesis spot_pos : 0 < underlying_ this.
Hypothesis strike_pos : 0 < strike_ this.
Hypothesis vol_pos : 0 < volatility_ this.
Hypothesis time_pos : 0 < residualTime_ this.




End GridBoundsClaims.






(** ** The re-centring branches, reached *)

Lemma exp_below_inverse (x : R) : 0 < x < 1 -> exp x < / (1 - x).
Proof.
  intros Hx. replace x with (- - x) at 1 by ring. rewrite exp_Ropp.
  apply Rinv_lt_contravar.
  - apply Rmult_lt_0_compat; [lra | apply exp_pos].
  - pose proof (exp_ineq1 (- x) ltac:(lra)). lra.
Qed.

Lemma minMaxFactor_value (o : BSMOption) (v : R) :
  0 < v -> volatility_ o * sqrt (residualTime_ o) = v ->
  minMaxFactor o = exp (4 * v + 0.08).
Proof.
  intros Hv E. unfold minMaxFactor. rewrite E. f_equal.
  assert (E2 : 0.02 / v * v = 0.02).
  { unfold Rdiv. rewrite Rmult_assoc, Rinv_l; lra. }
  replace (4 * (1 + 0.02 / v) * v) with (4 * v + 4 * (0.02 / v * v)) by ring.
  rewrite E2. lra.
Qed.

Lemma minMaxFactor_one_year (o : BSMOption) :
  volatility_ o = 0.2 -> residualTime_ o = 1 -> 1 < minMaxFactor o < 3.
Proof.
  intros Hv Ht. split.
  - apply minMaxFactor_gt_1; lra.
  - rewrite (minMaxFactor_value o 0.2) by (rewrite ?Hv, ?Ht, ?sqrt_1; lra).
    apply Rlt_le_trans with (exp 1); [apply exp_increasing; lra | apply exp_le_3].
Qed.

(** A strike of 10 under a spot of 100: the lower test fires alone. *)
Example setGridLimits_low_strike :
  setGridLimits low_strike
  = Ok (tt, with_limits (10 / 1.1) (100 / (10 / 1.1 / 100)) low_strike).
Proof.
  rewrite setGridLimits_run. cbv zeta.
  destruct (minMaxFactor_one_year low_strike eq_refl eq_refl) as [Hlo Hhi].
  assert (Hdiv : 100 / 3 < 100 / minMaxFactor low_strike).
  { unfold Rdiv. apply Rmult_lt_compat_l; [lra|].
    apply Rinv_lt_contravar; [|assumption]. nra. }
  unfold limits, after_high, after_low.
  change (underlying_ low_strike) with 100. change (strike_ low_strike) with 10.
  destruct (Rgt_dec _ _) as [_ | Hn]; [|exfalso; lra].
  cbn [fst snd]. rewrite recentre_eq by lra.
  destruct (Rlt_dec _ _) as [Hlt | _]; [exfalso; lra | reflexivity].
Qed.

(** A strike of 300 over a spot of 100: the upper test fires alone. *)
Example setGridLimits_high_strike :
  setGridLimits high_strike
  = Ok (tt, with_limits (100 / (300 * 1.1 / 100)) (300 * 1.1) high_strike).
Proof.
  rewrite setGridLimits_run. cbv zeta.
  destruct (minMaxFactor_one_year high_strike eq_refl eq_refl) as [Hlo Hhi].
  pose proof (div_factor_lt 100 (minMaxFactor high_strike) ltac:(lra) Hlo) as Hdiv.
  unfold limits, after_high, after_low.
  change (underlying_ high_strike) with 100. change (strike_ high_strike) with 300.
  destruct (Rgt_dec _ _) as [Hgt | _]; [exfalso; lra|].
  cbn [fst snd].
  destruct (Rlt_dec _ _) as [_ | Hn]; [reflexivity | exfalso; lra].
Qed.

(** A strike of 100.5 over a spot of 100 at a volatility of 0.001: the lower
    test fires, then the upper one; the bounds returned come from the second
    re-centring. *)
Example setGridLimits_near_strike :
  setGridLimits near_strike
  = Ok (tt, with_limits (100 / (100.5 * 1.1 / 100)) (100.5 * 1.1) near_strike).
Proof.
  rewrite setGridLimits_run. cbv zeta.
  assert (Hf : 1 < minMaxFactor near_strike < 1.0918).
  { split; [apply minMaxFactor_gt_1; cbn; lra|].
    rewrite (minMaxFactor_value near_strike 0.001) by (cbn; rewrite ?sqrt_1; lra).
    apply Rlt_trans with (/ (1 - (4 * 0.001 + 0.08))); [apply exp_below_inverse; lra|].
    apply Rmult_lt_reg_r with (1 - (4 * 0.001 + 0.08)); [lra|].
    rewrite Rinv_l; lra. }
  destruct Hf as [Hlo Hhi].
  assert (Hdiv : 100 / 1.0918 < 100 / minMaxFactor near_strike).
  { unfold Rdiv. apply Rmult_lt_compat_l; [lra|].
    apply Rinv_lt_contravar; [|assumption]. nra. }
  unfold limits, after_high, after_low.
  change (underlying_ near_strike) with 100. change (strike_ near_strike) with 100.5.
  destruct (Rgt_dec _ _) as [_ | Hn]; [|exfalso; lra].
  cbn [fst snd]. rewrite recentre_eq by lra.
  destruct (Rlt_dec _ _) as [_ | Hn]; [reflexivity | exfalso; lra].
Qed.

(* ===================================================================== *)
(** * Arrays and loops: facts *)
(* ===================================================================== *)

Section MethodFacts.

Context {St A B : Type}.

Lemma bind_ok (c : method St A) (k : A -> method St B) (s s' : St) (a : A) :
  c s = Ok (a, s') -> bind c k s = k a s'.
Proof. intros H. unfold bind. rewrite H. reflexivity. Qed.

Lemma bind_raise (c : method St A) (k : A -> method St B) (s : St) (e : exn) :
  c s = Raise e -> bind c k s = Raise e.
Proof. intros H. unfold bind. rewrite H. reflexivity. Qed.

End MethodFacts.

Section LoopFacts.

Context {St : Type}.
Variable body : Z -> method St unit.

Lemma for_empty (lo hi : Z) (s : St) : (hi <= lo)%Z -> for_ lo hi body s = Ok (tt, s).
Proof.
  intros H. unfold for_. replace (Z.to_nat (hi - lo)) with O by lia. reflexivity.
Qed.

Lemma for_first (lo hi : Z) (s : St) :
  (lo < hi)%Z -> for_ lo hi body s = (body lo ;; for_ (lo + 1) hi body) s.
Proof.
  intros H. unfold for_.
  replace (Z.to_nat (hi - lo)) with (S (Z.to_nat (hi - (lo + 1)))) by lia.
  reflexivity.
Qed.

(** The invariant rule, for total correctness: a body that returns and
    re-establishes the invariant at every index makes the loop return with
    the invariant at the upper bound. *)
Lemma for_invariant (Inv : Z -> St -> Prop) (lo hi : Z) :
  (lo <= hi)%Z ->
  (forall j s, (lo <= j < hi)%Z -> Inv j s ->
               exists s', body j s = Ok (tt, s') /\ Inv (j + 1)%Z s') ->
  forall s, Inv lo s -> exists s', for_ lo hi body s = Ok (tt, s') /\ Inv hi s'.
Proof.
  intros Hle Hstep.
  remember (Z.to_nat (hi - lo)) as n eqn:Hn.
  revert lo Hle Hstep Hn. induction n as [|n IH]; intros lo Hle Hstep Hn s Hinv.
  - assert (lo = hi) by lia. subst lo. exists s. split; [|assumption].
    apply for_empty. lia.
  - assert (Hlt : (lo < hi)%Z) by lia.
    destruct (Hstep lo s ltac:(lia) Hinv) as (s1 & Hbody & Hinv1).
    destruct (IH (lo + 1)%Z ltac:(lia)
                (fun j s Hj => Hstep j s ltac:(lia)) ltac:(lia) s1 Hinv1)
      as (s2 & Hrest & Hinv2).
    exists s2. split; [|assumption].
    rewrite for_first by assumption.
    rewrite (bind_ok _ _ _ _ _ Hbody). exact Hrest.
Qed.

End LoopFacts.

Section ArrayFacts.

Import Array.

Lemma length_update (n : nat) (x : R) (a : t) : length (update n x a) = length a.
Proof.
  revert n. induction a as [|hd tl IH]; intros [|n]; cbn; try reflexivity.
  now rewrite IH.
Qed.

Lemma size_update (n : nat) (x : R) (a : t) : size (update n x a) = size a.
Proof. unfold size. now rewrite length_update. Qed.

Lemma nth_update_eq (n : nat) (x d : R) (a : t) :
  (n < length a)%nat -> nth n (update n x a) d = x.
Proof.
  revert n. induction a as [|hd tl IH]; intros [|n] H; cbn in *; try lia.
  - reflexivity.
  - apply IH. lia.
Qed.

Lemma nth_update_ne (n m : nat) (x d : R) (a : t) :
  n <> m -> nth m (update n x a) d = nth m a d.
Proof.
  revert n m. induction a as [|hd tl IH]; intros [|n] [|m] H; cbn; try reflexivity.
  - contradiction.
  - apply IH. lia.
Qed.

Lemma in_range_true (a : t) (j : Z) : (0 <= j < size a)%Z -> in_range a j = true.
Proof. intros H. unfold in_range. apply andb_true_iff. split; lia. Qed.

Lemma in_range_false (a : t) (j : Z) : ~ (0 <= j < size a)%Z -> in_range a j = false.
Proof.
  intros H. unfold in_range. apply andb_false_iff.
  destruct (Z.leb_spec 0 j); [right|left; reflexivity]. lia.
Qed.

Lemma size_make (n : Z) : (0 <= n)%Z -> size (make n) = n.
Proof. intros H. unfold size, make. rewrite repeat_length. lia. Qed.

End ArrayFacts.

Section MemberArrays.

Variable this : BSMNumericalOption.
Variable j : Z.

Lemma grid_load_ok :
  (0 <= j < Array.size (grid_ this))%Z ->
  grid_load j this = Ok (Array.elt (grid_ this) j, this).
Proof.
  intros H. unfold grid_load, bind, self, get, lift, Array.load.
  now rewrite in_range_true.
Qed.

Lemma grid_store_ok (x : R) :
  (0 <= j < Array.size (grid_ this))%Z ->
  grid_store j x this = Ok (tt, set_grid (Array.update (Z.to_nat j) x (grid_ this)) this).
Proof.
  intros H. unfold grid_store, bind, self, get, lift, modify, Array.store.
  now rewrite in_range_true.
Qed.

Lemma initialPrices_load_ok :
  (0 <= j < Array.size (initialPrices_ this))%Z ->
  initialPrices_load j this = Ok (Array.elt (initialPrices_ this) j, this).
Proof.
  intros H. unfold initialPrices_load, bind, self, get, lift, Array.load.
  now rewrite in_range_true.
Qed.

Lemma initialPrices_load_fault :
  ~ (0 <= j < Array.size (initialPrices_ this))%Z ->
  initialPrices_load j this = Raise (OutOfBounds j).
Proof.
  intros H. unfold initialPrices_load, bind, self, get, lift, Array.load.
  now rewrite in_range_false.
Qed.

Lemma initialPrices_store_ok (x : R) :
  (0 <= j < Array.size (initialPrices_ this))%Z ->
  initialPrices_store j x this
  = Ok (tt, set_initialPrices (Array.update (Z.to_nat j) x (initialPrices_ this)) this).
Proof.
  intros H. unfold initialPrices_store, bind, self, get, lift, modify, Array.store.
  now rewrite in_range_true.
Qed.

End MemberArrays.

(* ===================================================================== *)
(** * The log-spaced grid *)
(* ===================================================================== *)


Section Grid.

Variable this : BSMNumericalOption.
Hypothesis grid_sized : Array.size (grid_ this) = gridPoints_ this.
Hypothesis one_point : (1 <= gridPoints_ this)%Z.

Lemma initializeGrid_step (j : Z) (s : BSMNumericalOption) :
  (1 <= j < gridPoints_ this)%Z -> grid_filled this j s ->
  exists s',
    (g <- grid_load (j - 1) ;; grid_store j (g * exp (logSpacing this))) s = Ok (tt, s')
    /\ grid_filled this (j + 1) s'.
Proof.
  intros Hj (g & -> & Hsize & Hfill). unfold grid_filled.
  eexists. split.
  - erewrite bind_ok by (apply grid_load_ok; cbn; lia).
    apply grid_store_ok. cbn. lia.
  - cbn. eexists. split; [reflexivity|]. split.
    + now rewrite size_update.
    + intros i Hi. destruct (Nat.eq_dec i (Z.to_nat j)) as [-> | Hne].
      * rewrite nth_update_eq by (unfold Array.size in Hsize; lia).
        unfold Array.elt. rewrite (Hfill (Z.to_nat (j - 1))) by lia.
        replace (Z.to_nat j) with (S (Z.to_nat (j - 1))) by lia.
        cbn [pow]. ring.
      * rewrite nth_update_ne by lia. apply Hfill. lia.
Qed.

Lemma initializeGrid_run :
  exists g,
    initializeGrid this = Ok (tt, set_grid g (set_gridLogSpacing (logSpacing this) this))
    /\ Array.size g = gridPoints_ this
    /\ forall i, (Z.of_nat i < gridPoints_ this)%Z ->
                 nth i g 0 = sMin_ this * exp (logSpacing this) ^ i.
Proof.
  destruct (for_invariant
              (fun j => g <- grid_load (j - 1) ;; grid_store j (g * exp (logSpacing this)))
              (grid_filled this) 1 (gridPoints_ this) one_point initializeGrid_step
              (set_grid (Array.update 0 (sMin_ this) (grid_ this))
                 (set_gridLogSpacing (logSpacing this) this)))
    as (s' & Hloop & g & -> & Hsize & Hfill).
  - eexists. split; [reflexivity|]. split.
    + now rewrite size_update.
    + intros i Hi. assert (i = O) by lia. subst i.
      rewrite nth_update_eq by (unfold Array.size in grid_sized; lia).
      cbn. ring.
  - exists g. split; [|split; assumption].
    unfold initializeGrid.
    unfold bind at 1. unfold self, get. unfold bind at 1. unfold modify at 1.
    unfold bind at 1. cbn [gridLogSpacing_ set_gridLogSpacing sMin_ gridPoints_].
    erewrite bind_ok by (apply grid_store_ok; cbn; lia).
    exact Hloop.
Qed.

End Grid.

Section GridClaim.

Variable this : BSMNumericalOption.
Hypothesis grid_sized : Array.size (grid_ this) = gridPoints_ this.
Hypothesis three_points : (3 <= gridPoints_ this)%Z.
Hypothesis sMin_pos : 0 < sMin_ this.
Hypothesis sMin_lt_sMax : sMin_ this < sMax_ this.


End GridClaim.

(* ===================================================================== *)
(** * The payoff *)
(* ===================================================================== *)

Section Payoff.

Variable this : BSMNumericalOption.
Hypothesis arrays_sized : sized this.

(** The payoff formula of one branch of the [switch]. *)
Variable pay : R -> R.

Lemma payoff_step (j : Z) (s : BSMNumericalOption) :
  (0 <= j < gridPoints_ this)%Z -> payoff_filled this pay j s ->
  exists s',
    (g <- grid_load j ;; initialPrices_store j (pay g)) s = Ok (tt, s')
    /\ payoff_filled this pay (j + 1) s'.
Proof.
  destruct arrays_sized as [Hg Hp].
  intros Hj (p & -> & Hsize & Hfill). unfold payoff_filled, payoff_written.
  eexists. split.
  - erewrite bind_ok by (apply grid_load_ok; cbn; lia).
    apply initialPrices_store_ok. cbn. lia.
  - cbn. eexists. split; [reflexivity|]. split.
    + now rewrite size_update.
    + intros i Hi. unfold Array.elt in *.
      destruct (Z.eq_dec i j) as [-> | Hne].
      * apply nth_update_eq. unfold Array.size in Hsize. lia.
      * rewrite nth_update_ne by lia. apply Hfill. lia.
Qed.

Lemma payoff_loop :
  exists p,
    for_ 0 (gridPoints_ this)
      (fun j => g <- grid_load j ;; initialPrices_store j (pay g)) this
    = Ok (tt, set_initialPrices p this)
    /\ payoff_written this pay (gridPoints_ this) p.
Proof.
  destruct arrays_sized as [Hg Hp].
  assert (Hn : (0 <= gridPoints_ this)%Z) by (unfold Array.size in Hg; lia).
  destruct (for_invariant _ (payoff_filled this pay) 0 (gridPoints_ this) Hn payoff_step this)
    as (s' & Hloop & p & -> & Hw).
  - exists (initialPrices_ this). split; [now destruct this|].
    split; [assumption|]. intros i Hi. lia.
  - exists p. split; assumption.
Qed.

End Payoff.

(** The [switch] of [initializeInitialCondition], entered. *)
Lemma initializeInitialCondition_switch (this : BSMNumericalOption) :
  initializeInitialCondition this
  = match type_ this with
    | Call =>
        for_ 0 (gridPoints_ this) (fun j =>
          g <- grid_load j ;;
          initialPrices_store j (Rmax (g - strike_ this) 0)) this
    | Put =>
        for_ 0 (gridPoints_ this) (fun j =>
          g <- grid_load j ;;
          initialPrices_store j (Rmax (strike_ this - g) 0)) this
    | Straddle =>
        for_ 0 (gridPoints_ this) (fun j =>
          g <- grid_load j ;;
          initialPrices_store j (Rabs (strike_ this - g))) this
    | Unlisted _ => Raise (Error "BSMNumericalOption: invalid option type")
    end.
Proof.
  unfold initializeInitialCondition, bind at 1, self, get.
  destruct (type_ this); reflexivity.
Qed.

Lemma initializeInitialCondition_returns (this : BSMNumericalOption) :
  sized this -> listed (type_ this) ->
  exists p,
    initializeInitialCondition this = Ok (tt, set_initialPrices p this)
    /\ Array.size p = gridPoints_ this.
Proof.
  intros Hsized Hlisted. rewrite initializeInitialCondition_switch.
  destruct (type_ this); cbn in Hlisted; try contradiction.
  - destruct (payoff_loop this Hsized (fun g => Rmax (g - strike_ this) 0))
      as (p & Hrun & Hsize & _). exists p. split; assumption.
  - destruct (payoff_loop this Hsized (fun g => Rmax (strike_ this - g) 0))
      as (p & Hrun & Hsize & _). exists p. split; assumption.
  - destruct (payoff_loop this Hsized (fun g => Rabs (strike_ this - g)))
      as (p & Hrun & Hsize & _). exists p. split; assumption.
Qed.

(** C5. On an object whose arrays have [gridPoints_] elements,
    [initializeInitialCondition] writes at every grid point
    [max (grid - strike, 0)] for a call, [max (strike - grid, 0)] for a put
    and [|strike - grid|] for a straddle; for a type that is none of the
    three it raises the error of the failed requirement. *)
Theorem initializeInitialCondition_payoff (this : BSMNumericalOption) :
  sized this ->
  match type_ this with
  | Call => fills_payoff (fun g => Rmax (g - strike_ this) 0) this
  | Put => fills_payoff (fun g => Rmax (strike_ this - g) 0) this
  | Straddle => fills_payoff (fun g => Rabs (strike_ this - g)) this
  | Unlisted _ =>
      initializeInitialCondition this
      = Raise (Error "BSMNumericalOption: invalid option type")
  end.
Proof.
  intros Hsized. unfold fills_payoff. rewrite initializeInitialCondition_switch.
  destruct (type_ this).
  - destruct (payoff_loop this Hsized (fun g => Rmax (g - strike_ this) 0))
      as (p & Hrun & Hsize & Hfill).
    exists p. split; [exact Hrun | split; [exact Hsize | exact Hfill]].
  - destruct (payoff_loop this Hsized (fun g => Rmax (strike_ this - g) 0))
      as (p & Hrun & Hsize & Hfill).
    exists p. split; [exact Hrun | split; [exact Hsize | exact Hfill]].
  - destruct (payoff_loop this Hsized (fun g => Rabs (strike_ this - g)))
      as (p & Hrun & Hsize & Hfill).
    exists p. split; [exact Hrun | split; [exact Hsize | exact Hfill]].
  - reflexivity.
Qed.

(* ===================================================================== *)
(** * The operator and its boundary conditions *)
(* ===================================================================== *)

Section Operator.

Variable this : BSMNumericalOption.
Hypothesis prices_sized : Array.size (initialPrices_ this) = gridPoints_ this.

(** The operator [initializeOperator] stores. *)
Lemma initializeOperator_run :
  (2 <= gridPoints_ this)%Z ->
  initializeOperator this
  = Ok (tt, set_finiteDifferenceOperator
              (Some (mkBSMOperator (gridPoints_ this) (gridLogSpacing_ this)
                       (riskFreeRate_ this) (dividendYield_ this) (volatility_ this)
                       (Some (mkBoundaryCondition Neumann
                                (payoff this 1 - payoff this 0)))
                       (Some (mkBoundaryCondition Neumann
                                (payoff this (gridPoints_ this - 1)
                                 - payoff this (gridPoints_ this - 2))))))
              this).
Proof.
  intros Hn.
  unfold initializeOperator, modify_operator, bind, self, get, modify.
  repeat (rewrite initialPrices_load_ok by (cbn; lia); cbv iota beta).
  reflexivity.
Qed.

(** C6. On an object whose payoff array has [gridPoints_ >= 2] elements,
    whatever its option type, [initializeOperator] returns and stores an
    operator whose lower boundary condition is Neumann with value
    [payoff 1 - payoff 0] and whose higher boundary condition is Neumann
    with value [payoff (gridPoints_ - 1) - payoff (gridPoints_ - 2)]; it
    changes nothing else. *)
Theorem initializeOperator_boundary_conditions :
  (2 <= gridPoints_ this)%Z ->
  exists op,
    initializeOperator this = Ok (tt, set_finiteDifferenceOperator (Some op) this)
    /\ lowerBC op = Some (mkBoundaryCondition Neumann (payoff this 1 - payoff this 0))
    /\ higherBC op
       = Some (mkBoundaryCondition Neumann
                 (payoff this (gridPoints_ this - 1)
                  - payoff this (gridPoints_ this - 2))).
Proof.
  intros Hn. eexists. split; [apply initializeOperator_run; exact Hn|].
  split; reflexivity.
Qed.

(** With a single point the read of [initialPrices_[1]] leaves the array. *)
Lemma initializeOperator_one_point :
  gridPoints_ this = 1%Z -> initializeOperator this = Raise (OutOfBounds 1).
Proof.
  intros Hn. unfold initializeOperator, bind, self, get, modify.
  rewrite initialPrices_load_fault by (cbn; lia). reflexivity.
Qed.

End Operator.

(* ===================================================================== *)
(** * Index safety of the three preparation steps *)
(* ===================================================================== *)

Lemma BSMNumericalOption_new_sized (safeGridPoints : Z -> R -> Z)
    (type : OptionType) (u k q r t v : R) (n : Z) :
  (0 <= safeGridPoints n t)%Z ->
  sized (BSMNumericalOption_new safeGridPoints type u k q r t v n).
Proof. intros H. split; cbn; now apply size_make. Qed.

Section IndexSafety.

Variable this : BSMNumericalOption.
Hypothesis arrays_sized : sized this.
Hypothesis type_listed : listed (type_ this).

Lemma prepare_returns :
  (2 <= gridPoints_ this)%Z ->
  exists this', prepare this = Ok (tt, this') /\ sized this'
                /\ gridPoints_ this' = gridPoints_ this.
Proof.
  intros Hn. destruct arrays_sized as [Hg Hp].
  destruct (initializeGrid_run this Hg ltac:(lia)) as (g & Hgrid & Hgsize & _).
  set (s1 := set_grid g _) in Hgrid.
  assert (Hs1 : sized s1) by (split; cbn; assumption).
  destruct (initializeInitialCondition_returns s1 Hs1 type_listed)
    as (p & Hpay & Hpsize).
  set (s2 := set_initialPrices p s1) in Hpay.
  pose proof (initializeOperator_run s2 Hpsize Hn) as Hop.
  eexists. split; [|split].
  - unfold prepare.
    rewrite (bind_ok _ _ _ _ _ Hgrid), (bind_ok _ _ _ _ _ Hpay). exact Hop.
  - split; cbn; assumption.
  - reflexivity.
Qed.

(** C10. On an object whose arrays have [gridPoints_ >= 3] elements and
    whose type is a call, a put or a straddle, the divisor
    [gridPoints_ - 1] of the log spacing is not zero, the indices [1],
    [gridPoints_ - 1] and [gridPoints_ - 2] are inside both arrays, and
    [initializeGrid], [initializeInitialCondition] and [initializeOperator]
    run to the end: no index they use leaves its array, which would show as
    [OutOfBounds]. *)
Theorem prepare_indices_in_bounds :
  (3 <= gridPoints_ this)%Z ->
  IZR (gridPoints_ this - 1) <> 0
  /\ (forall a j, In a [grid_ this; initialPrices_ this] ->
                  In j [1; gridPoints_ this - 1; gridPoints_ this - 2]%Z ->
                  Array.in_range a j = true)
  /\ exists this', prepare this = Ok (tt, this') /\ sized this'
                   /\ gridPoints_ this' = gridPoints_ this.
Proof.
  intros Hn. split; [|split].
  - apply not_0_IZR. lia.
  - destruct arrays_sized as [Hg Hp].
    intros a j [<- | [<- | []]] [<- | [<- | [<- | []]]];
      apply in_range_true; lia.
  - apply prepare_returns. lia.
Qed.

End IndexSafety.

(* ===================================================================== *)
(** * Lazily computed results *)
(* ===================================================================== *)

Section ResultCache.

Variable calculate_body : meth unit.

(** Modelled from the spec: a run of [calculate()] that returns leaves the
    object computed. *)
Hypothesis calculate_marks :
  forall o o', calculate_body o = Ok (tt, o') -> hasBeenCalculated_ o' = true.

Lemma call_computed (a : Accessor) (w : Observed) :
  hasBeenCalculated_ w = true -> call calculate_body a w = Ok (cached a w, w).
Proof.
  intros H. destruct a; cbn; unfold value, delta, gamma, theta, bind, observed, get;
    rewrite H; reflexivity.
Qed.

Lemma calls_computed (l : list Accessor) (w : Observed) :
  hasBeenCalculated_ w = true ->
  calls calculate_body l w = Ok (map (fun a => cached a w) l, w).
Proof.
  intros H. induction l as [|a l IH]; [reflexivity|].
  cbn [calls map].
  rewrite (bind_ok _ _ _ _ _ (call_computed a w H)).
  rewrite (bind_ok _ _ _ _ _ IH). reflexivity.
Qed.

Lemma call_uncomputed (a : Accessor) (w : Observed) :
  hasBeenCalculated_ w = false ->
  call calculate_body a w = match calculate_body w with
             | Ok (_, o') => Ok (cached a o', mkObserved o' (S (calculations w)))
             | Raise e => Raise e
             end.
Proof.
  intros H.
  destruct a; cbn;
    unfold value, delta, gamma, theta, bind, observed, get, calculate;
    rewrite H; cbn; destruct (calculate_body w) as [[[] o']|e]; reflexivity.
Qed.

(** C7. On an object that has not been computed, an accessor runs
    [calculate()] once.  If that run returns, the accessor returns the
    member it reads from the computed object, and every later sequence of
    accessor calls returns the stored members and leaves both the object
    and the count of [calculate()] runs as they are: one run in all.  If
    the run raises, the accessor raises the same. *)
Theorem accessors_calculate_once (w : Observed) (a : Accessor) :
  hasBeenCalculated_ w = false ->
  match call calculate_body a w with
  | Ok (r, w1) =>
      calculate_body w = Ok (tt, object w1)
      /\ calculations w1 = S (calculations w)
      /\ r = cached a w1
      /\ forall l, calls calculate_body l w1 = Ok (map (fun b => cached b w1) l, w1)
  | Raise e => calculate_body w = Raise e
  end.
Proof.
  intros H. rewrite (call_uncomputed a w H).
  destruct (calculate_body w) as [[[] o']|e] eqn:Hrun; [|reflexivity].
  repeat split. intros l. apply calls_computed. cbn.
  exact (calculate_marks _ _ Hrun).
Qed.

End ResultCache.

(* ===================================================================== *)
(** * The Monte Carlo forward engine: step configuration *)
(* ===================================================================== *)

Section StepConfiguration.

Import MCForwardVanillaEngine.

Variable Null_Size : N.
Variable StochasticProcess : Type.

(** The null value is not a step count: it is the largest value of the
    integer type it is taken from. *)
Hypothesis Null_Size_nonzero : Null_Size <> 0%N.

Variable process : StochasticProcess.
Variables timeSteps timeStepsPerYear : N.
Variables brownianBridge antitheticVariate : bool.
Variables requiredSamples maxSamples seed : N.
Variable requiredTolerance : R.

(** C8. The constructor raises an error exactly when the step
    configuration is ill-formed (neither value supplied, both supplied, or
    a supplied value that is zero), and returns the engine, its members set
    from the arguments, exactly when one value is supplied and positive. *)
Theorem new_validates_steps :
  (ill_formed Null_Size timeSteps timeStepsPerYear
   <-> exists msg,
         new Null_Size StochasticProcess process timeSteps timeStepsPerYear
         brownianBridge antitheticVariate requiredSamples requiredTolerance
         maxSamples seed
         = Raise (Error msg))
  /\ (one_positive Null_Size timeSteps timeStepsPerYear
      <-> new Null_Size StochasticProcess process timeSteps timeStepsPerYear
         brownianBridge antitheticVariate requiredSamples requiredTolerance
         maxSamples seed
          = Ok (mk StochasticProcess antitheticVariate process timeSteps
                         timeStepsPerYear requiredSamples maxSamples
                         requiredTolerance brownianBridge seed)).
Proof.
  unfold new, body, QL_REQUIRE, bind, ret, throw,
    ill_formed, one_positive, supplied.
  destruct (N.eqb_spec timeSteps Null_Size) as [Hts | Hts];
    destruct (N.eqb_spec timeStepsPerYear Null_Size) as [Hpy | Hpy];
    destruct (N.eqb_spec timeSteps 0) as [Hts0 | Hts0];
    destruct (N.eqb_spec timeStepsPerYear 0) as [Hpy0 | Hpy0];
    cbn; (split; split);
    try (intros _; eexists; reflexivity);
    try discriminate;
    try reflexivity;
    try (intros [msg Hmsg]; discriminate);
    try congruence;
    try (intros; tauto);
    try (intros; lia).
Qed.

End StepConfiguration.

(* ===================================================================== *)
(** * The scenario, run *)
(* ===================================================================== *)

Lemma scenario_sized : sized scenario.
Proof. split; reflexivity. Qed.

Lemma calculate_pipeline_marks (solve : BSMNumericalOption -> R * R * R * R)
    (o o' : BSMNumericalOption) :
  calculate_pipeline solve o = Ok (tt, o') -> hasBeenCalculated_ o' = true.
Proof.
  unfold calculate_pipeline, bind, self, get, modify.
  destruct (setGridLimits o) as [[[] s1]|]; [|discriminate].
  destruct (prepare s1) as [[[] s2]|]; [|discriminate].
  destruct (solve s2) as [[[v d] g] t].
  intros H. injection H as <-. reflexivity.
Qed.

Lemma calculate_pipeline_returns (solve : BSMNumericalOption -> R * R * R * R)
    (o : BSMNumericalOption) :
  sized o -> listed (type_ o) -> (2 <= gridPoints_ o)%Z ->
  exists o', calculate_pipeline solve o = Ok (tt, o').
Proof.
  intros Hsized Hlisted Hn.
  pose proof (setGridLimits_run o) as Hlim. cbv zeta in Hlim.
  set (s1 := with_limits _ _ o) in Hlim.
  destruct (prepare_returns s1 Hsized Hlisted Hn) as (s2 & Hprep & _).
  unfold calculate_pipeline.
  rewrite (bind_ok _ _ _ _ _ Hlim), (bind_ok _ _ _ _ _ Hprep).
  unfold bind, self, get, modify. destruct (solve s2) as [[[v d] g] t].
  eexists. reflexivity.
Qed.

(** In the scenario the first accessor call returns, after one run. *)
Lemma scenario_first_call_returns (a : Accessor) :
  exists r w1,
    call (calculate_pipeline no_solver) a (mkObserved scenario 0) = Ok (r, w1)
    /\ calculations w1 = 1%nat.
Proof.
  destruct (calculate_pipeline_returns no_solver scenario scenario_sized I
              ltac:(cbn; lia)) as (o' & Hrun).
  rewrite call_uncomputed by reflexivity. cbn [object]. rewrite Hrun.
  eexists _, _. split; reflexivity.
Qed.


Lemma initializeInitialCondition_payoff_scenario :
  fills_payoff (fun g => Rmax (g - 100) 0) scenario.
Proof. apply (initializeInitialCondition_payoff scenario). split; reflexivity. Defined.

Lemma initializeOperator_boundary_conditions_three_points :
  exists op,
    initializeOperator three_points
    = Ok (tt, set_finiteDifferenceOperator (Some op) three_points)
    /\ lowerBC op = Some (mkBoundaryCondition Neumann (1 - 0))
    /\ higherBC op = Some (mkBoundaryCondition Neumann (3 - 1)).
Proof.
  apply (initializeOperator_boundary_conditions three_points); [reflexivity | cbn; lia].
Defined.

Lemma prepare_indices_in_bounds_scenario :
  IZR (101 - 1) <> 0
  /\ (forall a j, In a [grid_ scenario; initialPrices_ scenario] ->
                  In j [1; 101 - 1; 101 - 2]%Z -> Array.in_range a j = true)
  /\ exists this', prepare scenario = Ok (tt, this') /\ sized this'
                   /\ gridPoints_ this' = 101%Z.
Proof.
  apply (prepare_indices_in_bounds scenario);
    [split; reflexivity | exact I | cbn; lia].
Defined.

Lemma accessors_calculate_once_scenario :
  match call (calculate_pipeline no_solver) AValue (mkObserved scenario 0) with
  | Ok (r, w1) =>
      calculate_pipeline no_solver scenario = Ok (tt, object w1)
      /\ calculations w1 = 1%nat
      /\ r = value_ w1
      /\ forall l, calls (calculate_pipeline no_solver) l w1
                   = Ok (map (fun b => cached b w1) l, w1)
  | Raise e => calculate_pipeline no_solver scenario = Raise e
  end.
Proof.
  apply (accessors_calculate_once (calculate_pipeline no_solver)
           (calculate_pipeline_marks no_solver) (mkObserved scenario 0) AValue).
  reflexivity.
Defined.

(** The cases of the validation: 10 steps and 12 steps per year together,
    neither, and zero steps, with the largest [int] as the null value. *)
Example new_both_supplied :
  MCForwardVanillaEngine.new int_max unit tt 10 12 false false 1 0 1 42
  = Raise (Error "both time steps and time steps per year were provided").
Proof. reflexivity. Qed.

Example new_none_supplied :
  MCForwardVanillaEngine.new int_max unit tt int_max int_max false false 1 0 1 42
  = Raise (Error "no time steps provided").
Proof. reflexivity. Qed.

Example new_zero_steps :
  MCForwardVanillaEngine.new int_max unit tt 0 int_max false false 1 0 1 42
  = Raise (Error "timeSteps must be positive, 0 not allowed").
Proof. reflexivity. Qed.

Lemma new_validates_steps_ten :
  (MCForwardVanillaEngine.ill_formed int_max 10 int_max
   <-> exists msg,
         MCForwardVanillaEngine.new int_max unit tt 10 int_max false false 1 0 1 42
         = Raise (Error msg))
  /\ (MCForwardVanillaEngine.one_positive int_max 10 int_max
      <-> MCForwardVanillaEngine.new int_max unit tt 10 int_max false false 1 0 1 42
          = Ok (MCForwardVanillaEngine.mk unit false tt 10 int_max 1 1 0 false 42)).
Proof.
  apply (new_validates_steps int_max unit). unfold int_max. lia.
Defined.

(* ===================================================================== *)
(** * Grid bounds: further properties *)
(* ===================================================================== *)

Section WiderBounds.

Variables z S K f : R.
Hypothesis Hz : 0 < z.
Hypothesis HS : 0 < S.
Hypothesis HK : 0 < K.
Hypothesis Hf : 1 < f.







End WiderBounds.

Section BoundsUsed.

Variable this : BSMNumericalOption.
Hypothesis spot_pos : 0 < underlying_ this.
Hypothesis strike_pos : 0 < strike_ this.
Hypothesis vol_pos : 0 < volatility_ this.
Hypothesis time_pos : 0 < residualTime_ this.




End BoundsUsed.

(** X3. [setGridLimits] reads the inputs only: the bounds it finds in the
    object do not matter, and running it a second time changes nothing. *)
Theorem setGridLimits_idempotent (this : BSMNumericalOption) (lo hi : R) :
  setGridLimits (with_limits lo hi this) = setGridLimits this
  /\ (setGridLimits ;; setGridLimits) this = setGridLimits this.
Proof.
  assert (Hprior : forall a b,
             setGridLimits (with_limits a b this) = setGridLimits this).
  { intros a b. rewrite !setGridLimits_run. reflexivity. }
  split; [apply Hprior|].
  pose proof (setGridLimits_run this) as Hrun. cbv zeta in Hrun.
  rewrite (bind_ok _ _ _ _ _ Hrun), Hprior. reflexivity.
Qed.



(* ===================================================================== *)
(** * The grid: further properties *)
(* ===================================================================== *)

Section Geometric.

Variables lo hi : R.
Hypothesis lo_pos : 0 < lo.
Hypothesis hi_pos : 0 < hi.




End Geometric.


Section GridOrder.

Variable this : BSMNumericalOption.
Hypothesis grid_sized : Array.size (grid_ this) = gridPoints_ this.
Hypothesis two_points : (2 <= gridPoints_ this)%Z.
Hypothesis sMin_pos : 0 < sMin_ this.
Hypothesis sMin_lt_sMax : sMin_ this < sMax_ this.


End GridOrder.

Section BoundsAndGrid.

Variable this : BSMNumericalOption.
Hypothesis grid_sized : Array.size (grid_ this) = gridPoints_ this.
Hypothesis spot_pos : 0 < underlying_ this.
Hypothesis strike_pos : 0 < strike_ this.
Hypothesis vol_pos : 0 < volatility_ this.
Hypothesis time_pos : 0 < residualTime_ this.




End BoundsAndGrid.




(* ===================================================================== *)
(** * The payoff: further properties *)
(* ===================================================================== *)

Lemma payoff_at_nonneg (ty : OptionType) (K g : R) : 0 <= payoff_at ty K g.
Proof.
  destruct ty; cbn; try apply Rmax_r; try apply Rabs_pos. lra.
Qed.


Lemma payoff_at_call_monotone (K g1 g2 : R) :
  g1 <= g2 -> payoff_at Call K g1 <= payoff_at Call K g2.
Proof.
  intros H. cbn. unfold Rmax. repeat (destruct (Rle_dec _ _)); lra.
Qed.

Lemma payoff_at_put_monotone (K g1 g2 : R) :
  g1 <= g2 -> payoff_at Put K g2 <= payoff_at Put K g1.
Proof.
  intros H. cbn. unfold Rmax. repeat (destruct (Rle_dec _ _)); lra.
Qed.

Lemma payoff_at_parity (K g : R) :
  payoff_at Straddle K g = payoff_at Call K g + payoff_at Put K g
  /\ payoff_at Call K g - payoff_at Put K g = g - K.
Proof.
  cbn. unfold Rmax, Rabs.
  repeat (destruct (Rle_dec _ _)); repeat (destruct (Rcase_abs _)); lra.
Qed.

Lemma array_ext (a b : Array.t) :
  Array.size a = Array.size b ->
  (forall j, (0 <= j < Array.size a)%Z -> Array.elt a j = Array.elt b j) ->
  a = b.
Proof.
  unfold Array.size, Array.elt. intros Hsize Helt.
  apply nth_ext with (d := 0) (d' := 0); [lia|].
  intros n Hn. specialize (Helt (Z.of_nat n) ltac:(lia)).
  now rewrite Nat2Z.id in Helt.
Qed.

(** The payoff array of a listed type, by [payoff_at]. *)
Lemma initializeInitialCondition_listed (this : BSMNumericalOption) :
  sized this -> listed (type_ this) ->
  fills_payoff (payoff_at (type_ this) (strike_ this)) this.
Proof.
  intros Hsized Hlisted. unfold fills_payoff.
  rewrite initializeInitialCondition_switch.
  destruct (type_ this); cbn in Hlisted; try contradiction; cbn [payoff_at].
  - destruct (payoff_loop this Hsized (fun g => Rmax (g - strike_ this) 0))
      as (p & Hrun & Hsize & Hfill).
    exists p. split; [exact Hrun | split; [exact Hsize | exact Hfill]].
  - destruct (payoff_loop this Hsized (fun g => Rmax (strike_ this - g) 0))
      as (p & Hrun & Hsize & Hfill).
    exists p. split; [exact Hrun | split; [exact Hsize | exact Hfill]].
  - destruct (payoff_loop this Hsized (fun g => Rabs (strike_ this - g)))
      as (p & Hrun & Hsize & Hfill).
    exists p. split; [exact Hrun | split; [exact Hsize | exact Hfill]].
Qed.

Section PayoffShape.

Variable this : BSMNumericalOption.
Hypothesis arrays_sized : sized this.

(** X7. For a call, a put or a straddle, no payoff written by
    [initializeInitialCondition] is negative. *)
Theorem initializeInitialCondition_nonnegative :
  listed (type_ this) ->
  exists p,
    initializeInitialCondition this = Ok (tt, set_initialPrices p this)
    /\ forall j, (0 <= j < gridPoints_ this)%Z -> 0 <= Array.elt p j.
Proof.
  intros Hlisted.
  destruct (initializeInitialCondition_listed this arrays_sized Hlisted)
    as (p & Hrun & _ & Hfill).
  exists p. split; [exact Hrun|].
  intros j Hj. rewrite Hfill by assumption. apply payoff_at_nonneg.
Qed.


(** X9. On the same grid and strike, the payoff written for a straddle is
    at every grid point that of the call plus that of the put, and the
    payoff of the call minus that of the put is the grid point minus the
    strike. *)
Theorem initializeInitialCondition_parity :
  exists pc pp ps,
    initializeInitialCondition (with_type Call this)
    = Ok (tt, set_initialPrices pc (with_type Call this))
    /\ initializeInitialCondition (with_type Put this)
       = Ok (tt, set_initialPrices pp (with_type Put this))
    /\ initializeInitialCondition (with_type Straddle this)
       = Ok (tt, set_initialPrices ps (with_type Straddle this))
    /\ forall j, (0 <= j < gridPoints_ this)%Z ->
         Array.elt ps j = Array.elt pc j + Array.elt pp j
         /\ Array.elt pc j - Array.elt pp j = Array.elt (grid_ this) j - strike_ this.
Proof.
  destruct (initializeInitialCondition_listed (with_type Call this) arrays_sized I)
    as (pc & Hc & _ & Hfc).
  destruct (initializeInitialCondition_listed (with_type Put this) arrays_sized I)
    as (pp & Hp & _ & Hfp).
  destruct (initializeInitialCondition_listed (with_type Straddle this) arrays_sized I)
    as (ps & Hs & _ & Hfs).
  exists pc, pp, ps. repeat (split; [assumption|]).
  intros j Hj. rewrite (Hfc j Hj), (Hfp j Hj), (Hfs j Hj).
  apply payoff_at_parity.
Qed.

(** X10. [initializeInitialCondition] reads the grid, the strike and the
    type only: run a second time it returns the same object, or raises the
    same error. *)
Theorem initializeInitialCondition_idempotent :
  (initializeInitialCondition ;; initializeInitialCondition) this
  = initializeInitialCondition this.
Proof.
  destruct (type_ this) eqn:Hty;
    try (assert (Hlisted : listed (type_ this)) by (rewrite Hty; exact I);
         destruct (initializeInitialCondition_listed this arrays_sized Hlisted)
           as (p & Hrun & Hsize & Hfill);
         assert (Hsized1 : sized (set_initialPrices p this))
           by (destruct arrays_sized; split; cbn; assumption);
         destruct (initializeInitialCondition_listed (set_initialPrices p this)
                     Hsized1 Hlisted) as (p' & Hrun' & Hsize' & Hfill');
         rewrite (bind_ok _ _ _ _ _ Hrun), Hrun', Hrun;
         replace p' with p
           by (apply array_ext;
               [cbn in Hsize'; congruence
               | intros j Hj; rewrite Hfill, Hfill' by (cbn; lia); reflexivity]);
         reflexivity).
  assert (Hraise : initializeInitialCondition this
                   = Raise (Error "BSMNumericalOption: invalid option type"))
    by (rewrite initializeInitialCondition_switch, Hty; reflexivity).
  rewrite (bind_raise _ _ _ _ Hraise), Hraise. reflexivity.
Qed.

End PayoffShape.

Lemma initializeInitialCondition_nonnegative_scenario :
  exists p,
    initializeInitialCondition scenario = Ok (tt, set_initialPrices p scenario)
    /\ forall j, (0 <= j < 101)%Z -> 0 <= Array.elt p j.
Proof.
  apply (initializeInitialCondition_nonnegative scenario); [split; reflexivity | exact I].
Defined.


Lemma initializeInitialCondition_parity_three_points :
  exists pc pp ps,
    initializeInitialCondition (with_type Call three_points_grid)
    = Ok (tt, set_initialPrices pc (with_type Call three_points_grid))
    /\ initializeInitialCondition (with_type Put three_points_grid)
       = Ok (tt, set_initialPrices pp (with_type Put three_points_grid))
    /\ initializeInitialCondition (with_type Straddle three_points_grid)
       = Ok (tt, set_initialPrices ps (with_type Straddle three_points_grid))
    /\ forall j, (0 <= j < 3)%Z ->
         Array.elt ps j = Array.elt pc j + Array.elt pp j
         /\ Array.elt pc j - Array.elt pp j = Array.elt [50; 100; 200] j - 100.
Proof.
  apply (initializeInitialCondition_parity three_points_grid). split; reflexivity.
Defined.

Lemma initializeInitialCondition_idempotent_three_points :
  (initializeInitialCondition ;; initializeInitialCondition) three_points_grid
  = initializeInitialCondition three_points_grid.
Proof.
  apply (initializeInitialCondition_idempotent three_points_grid). split; reflexivity.
Defined.

(* ===================================================================== *)
(** * Preparation: the least number of points, and the boundary values *)
(* ===================================================================== *)

Lemma grid_store_fault (this : BSMNumericalOption) (j : Z) (x : R) :
  ~ (0 <= j < Array.size (grid_ this))%Z ->
  grid_store j x this = Raise (OutOfBounds j).
Proof.
  intros H. unfold grid_store, bind, self, get, lift, Array.store.
  now rewrite in_range_false.
Qed.

(** Without a point the first write of [initializeGrid] leaves the array. *)
Lemma initializeGrid_no_point (this : BSMNumericalOption) :
  Array.size (grid_ this) = gridPoints_ this -> gridPoints_ this = 0%Z ->
  initializeGrid this = Raise (OutOfBounds 0).
Proof.
  intros Hsize Hn. unfold initializeGrid, bind, self, get, modify.
  rewrite grid_store_fault by (cbn; lia). reflexivity.
Qed.

Section Threshold.

Variable this : BSMNumericalOption.
Hypothesis arrays_sized : sized this.
Hypothesis type_listed : listed (type_ this).

(** X11. On an object whose arrays have [gridPoints_] elements and whose
    type is listed, grid, payoff and operator run to the end exactly when
    there are at least two points.  With none the first write of
    [initializeGrid] is outside the grid; with one the read of
    [initialPrices_[1]] in [initializeOperator] is outside the payoff: in
    both cases the offending index is [gridPoints_]. *)
Theorem prepare_needs_two_points :
  ((exists this', prepare this = Ok (tt, this')) <-> (2 <= gridPoints_ this)%Z)
  /\ ((gridPoints_ this < 2)%Z ->
      prepare this = Raise (OutOfBounds (gridPoints_ this))).
Proof.
  assert (Hfault : (gridPoints_ this < 2)%Z ->
                   prepare this = Raise (OutOfBounds (gridPoints_ this))).
  { intros Hlt. destruct arrays_sized as [Hg Hp].
    assert (Hcases : gridPoints_ this = 0%Z \/ gridPoints_ this = 1%Z)
      by (unfold Array.size in Hg; lia).
    destruct Hcases as [H0 | H1]; unfold prepare.
    - rewrite H0. apply bind_raise. now apply initializeGrid_no_point.
    - destruct (initializeGrid_run this Hg ltac:(lia)) as (g & Hgrid & Hgsize & _).
      set (s1 := set_grid g _) in Hgrid.
      assert (Hs1 : sized s1) by (split; cbn; assumption).
      destruct (initializeInitialCondition_returns s1 Hs1 type_listed)
        as (p & Hpay & Hpsize).
      rewrite (bind_ok _ _ _ _ _ Hgrid), (bind_ok _ _ _ _ _ Hpay), H1.
      apply initializeOperator_one_point; cbn; [exact Hpsize | exact H1]. }
  split; [|exact Hfault]. split.
  - intros [this' Hrun].
    destruct (Z_lt_le_dec (gridPoints_ this) 2) as [Hlt | Hge]; [|exact Hge].
    rewrite (Hfault Hlt) in Hrun. discriminate.
  - intros Hn. destruct (prepare_returns this arrays_sized type_listed Hn)
      as (this' & Hrun & _). now exists this'.
Qed.

Lemma payoff_and_operator_run :
  (2 <= gridPoints_ this)%Z ->
  exists p,
    payoff_and_operator this
    = Ok (tt, set_finiteDifferenceOperator
                (Some (mkBSMOperator (gridPoints_ this) (gridLogSpacing_ this)
                         (riskFreeRate_ this) (dividendYield_ this) (volatility_ this)
                         (Some (mkBoundaryCondition Neumann
                                  (Array.elt p 1 - Array.elt p 0)))
                         (Some (mkBoundaryCondition Neumann
                                  (Array.elt p (gridPoints_ this - 1)
                                   - Array.elt p (gridPoints_ this - 2))))))
                (set_initialPrices p this))
    /\ forall j, (0 <= j < gridPoints_ this)%Z ->
         Array.elt p j = payoff_at (type_ this) (strike_ this) (Array.elt (grid_ this) j).
Proof.
  intros Hn.
  destruct (initializeInitialCondition_listed this arrays_sized type_listed)
    as (p & Hpay & Hpsize & Hfill).
  exists p. split; [|exact Hfill].
  unfold payoff_and_operator. rewrite (bind_ok _ _ _ _ _ Hpay).
  apply (initializeOperator_run (set_initialPrices p this) Hpsize Hn).
Qed.


(** X13. With at least two points and a grid that does not decrease over its
    first and its last step, the two Neumann values are not negative for a
    call and not positive for a put. *)
Theorem boundary_values_sign :
  (2 <= gridPoints_ this)%Z ->
  Array.elt (grid_ this) 0 <= Array.elt (grid_ this) 1 ->
  Array.elt (grid_ this) (gridPoints_ this - 2)
  <= Array.elt (grid_ this) (gridPoints_ this - 1) ->
  exists this' op lower higher,
    payoff_and_operator this = Ok (tt, this')
    /\ finiteDifferenceOperator_ this' = Some op
    /\ neumann_value (lowerBC op) = Some lower
    /\ neumann_value (higherBC op) = Some higher
    /\ match type_ this with
       | Call => 0 <= lower /\ 0 <= higher
       | Put => lower <= 0 /\ higher <= 0
       | _ => True
       end.
Proof.
  intros Hn Hfirst Hlast. destruct (payoff_and_operator_run Hn) as (p & Hrun & Hfill).
  eexists _, _, _, _. split; [exact Hrun|].
  split; [reflexivity|]. split; [reflexivity|]. split; [reflexivity|].
  rewrite !Hfill by lia.
  destruct (type_ this); try exact I.
  - pose proof (payoff_at_call_monotone (strike_ this) _ _ Hfirst).
    pose proof (payoff_at_call_monotone (strike_ this) _ _ Hlast). split; lra.
  - pose proof (payoff_at_put_monotone (strike_ this) _ _ Hfirst).
    pose proof (payoff_at_put_monotone (strike_ this) _ _ Hlast). split; lra.
Qed.

End Threshold.

Lemma prepare_needs_two_points_three_points :
  ((exists this', prepare three_points_grid = Ok (tt, this')) <-> (2 <= 3)%Z)
  /\ ((3 < 2)%Z -> prepare three_points_grid = Raise (OutOfBounds 3)).
Proof.
  apply (prepare_needs_two_points three_points_grid); [split; reflexivity | exact I].
Defined.


(** Evaluates the indices of element accesses on concrete arrays. *)
Ltac eval_elt :=
  unfold Array.elt;
  repeat match goal with
         | |- context [Z.to_nat ?z] =>
             let n := eval compute in (Z.to_nat z) in
             progress change (Z.to_nat z) with n
         end;
  cbn.

Lemma boundary_values_sign_three_points :
  exists this' op lower higher,
    payoff_and_operator three_points_grid = Ok (tt, this')
    /\ finiteDifferenceOperator_ this' = Some op
    /\ neumann_value (lowerBC op) = Some lower
    /\ neumann_value (higherBC op) = Some higher
    /\ (lower <= 0 /\ higher <= 0).
Proof.
  apply (boundary_values_sign three_points_grid);
    [split; reflexivity | exact I | cbn; lia
    | eval_elt; lra | eval_elt; lra].
Defined.

(* ===================================================================== *)
(** * Lazily computed results: what the accessors leave to [calculate()] *)
(* ===================================================================== *)

Section Uncached.

Variable calculate_body : meth unit.

(** A body that returns and leaves an unset flag unset. *)
Hypothesis calculate_forgets :
  forall o, hasBeenCalculated_ o = false ->
            exists o', calculate_body o = Ok (tt, o') /\ hasBeenCalculated_ o' = false.

(** X14. The accessors never set [hasBeenCalculated_] themselves: with a
    [calculate()] that returns without setting it, every accessor call runs
    [calculate()] again, so a sequence of calls runs it as many times as
    there are calls. *)
Theorem accessors_do_not_set_flag (l : list Accessor) (w : Observed) :
  hasBeenCalculated_ w = false ->
  exists rs w',
    calls calculate_body l w = Ok (rs, w')
    /\ calculations w' = (calculations w + length l)%nat
    /\ hasBeenCalculated_ w' = false.
Proof.
  revert w. induction l as [|a l IH]; intros w Hflag.
  - exists [], w. cbn. repeat split; [lia | assumption].
  - destruct (calculate_forgets w Hflag) as (o' & Hrun & Hflag').
    pose proof (call_uncomputed calculate_body a w Hflag) as Hcall.
    rewrite Hrun in Hcall.
    destruct (IH (mkObserved o' (S (calculations w))) Hflag')
      as (rs & w' & Hrest & Hcount & Hflag'').
    exists (cached a o' :: rs), w'. cbn [calls length].
    rewrite (bind_ok _ _ _ _ _ Hcall), (bind_ok _ _ _ _ _ Hrest).
    cbn in Hcount. repeat split; [lia | assumption].
Qed.

End Uncached.

Lemma accessors_do_not_set_flag_scenario :
  exists rs w',
    calls forgetful_body [AValue; ADelta; AValue] (mkObserved scenario 0) = Ok (rs, w')
    /\ calculations w' = 3%nat
    /\ hasBeenCalculated_ w' = false.
Proof.
  apply (accessors_do_not_set_flag forgetful_body).
  - intros o Ho. eexists. split; [reflexivity | exact Ho].
  - reflexivity.
Defined.

(* ===================================================================== *)
(** * The Monte Carlo forward engine: errors and the time grid *)
(* ===================================================================== *)



Section EngineUse.

Import MCForwardVanillaEngine.

Variable Null_Size : N.
Variable StochasticProcess : Type.
Hypothesis Null_Size_nonzero : Null_Size <> 0%N.

Variable Date : Type.
Variable time : StochasticProcess -> Date -> R.
Variable TimeGrid : Type.
Variable TimeGrid_new : list R -> N -> TimeGrid.

Variable process : StochasticProcess.
Variables timeSteps timeStepsPerYear : N.
Variables brownianBridge antitheticVariate : bool.
Variables requiredSamples maxSamples seed : N.
Variable requiredTolerance : R.


(** X15. Which error the constructor raises: with neither value supplied
    [no time steps provided]; with both supplied the error about both, also
    when one of them is zero; with zero as the only value supplied the error
    about that value. *)
Theorem new_error_message :
  let engine :=
    new Null_Size StochasticProcess process timeSteps timeStepsPerYear
      brownianBridge antitheticVariate requiredSamples requiredTolerance
      maxSamples seed in
  (timeSteps = Null_Size -> timeStepsPerYear = Null_Size ->
   engine = Raise (Error "no time steps provided"))
  /\ (timeSteps <> Null_Size -> timeStepsPerYear <> Null_Size ->
      engine = Raise (Error "both time steps and time steps per year were provided"))
  /\ (timeSteps = 0%N -> timeStepsPerYear = Null_Size ->
      engine = Raise (Error "timeSteps must be positive, 0 not allowed"))
  /\ (timeSteps = Null_Size -> timeStepsPerYear = 0%N ->
      engine = Raise (Error "timeStepsPerYear must be positive, 0 not allowed")).
Proof.
  cbv zeta. unfold new, body, QL_REQUIRE, bind, ret, throw.
  repeat split.
  - intros -> ->. rewrite N.eqb_refl. reflexivity.
  - intros Hts Hpy.
    apply N.eqb_neq in Hts, Hpy. rewrite Hts, Hpy. reflexivity.
  - intros -> ->. rewrite N.eqb_refl.
    destruct (N.eqb_spec 0 Null_Size) as [E | _]; [congruence | reflexivity].
  - intros -> ->. rewrite N.eqb_refl.
    destruct (N.eqb_spec 0 Null_Size) as [E | _]; [congruence|].
    cbn. destruct (N.eqb_spec Null_Size 0) as [E | _]; [congruence | reflexivity].
Qed.

Section Built.

Variable e : t StochasticProcess.
Hypothesis built :
  new Null_Size StochasticProcess process timeSteps timeStepsPerYear
    brownianBridge antitheticVariate requiredSamples requiredTolerance
    maxSamples seed = Ok e.

Variables resetDate lastExerciseDate : Date.



End Built.

End EngineUse.

Lemma new_error_message_zero_steps :
  (0%N = int_max -> int_max = int_max ->
   MCForwardVanillaEngine.new int_max unit tt 0 int_max false false 1 0 1 42
   = Raise (Error "no time steps provided"))
  /\ (0%N <> int_max -> int_max <> int_max ->
      MCForwardVanillaEngine.new int_max unit tt 0 int_max false false 1 0 1 42
      = Raise (Error "both time steps and time steps per year were provided"))
  /\ (0%N = 0%N -> int_max = int_max ->
      MCForwardVanillaEngine.new int_max unit tt 0 int_max false false 1 0 1 42
      = Raise (Error "timeSteps must be positive, 0 not allowed"))
  /\ (0%N = int_max -> int_max = 0%N ->
      MCForwardVanillaEngine.new int_max unit tt 0 int_max false false 1 0 1 42
      = Raise (Error "timeStepsPerYear must be positive, 0 not allowed")).
Proof.
  apply (new_error_message int_max unit). unfold int_max. lia.
Defined.



(* ===================================================================== *)
(** * The payoff at the edges of the grid *)
(* ===================================================================== *)

Section EdgePayoff.

Variable this : BSMNumericalOption.
Hypothesis arrays_sized : sized this.
Hypothesis type_listed : listed (type_ this).
Hypothesis spot_pos : 0 < underlying_ this.
Hypothesis strike_pos : 0 < strike_ this.
Hypothesis vol_pos : 0 < volatility_ this.
Hypothesis time_pos : 0 < residualTime_ this.
Hypothesis two_points : (2 <= gridPoints_ this)%Z.


End EdgePayoff.

